(** * dsorm: rendering of schema and query descriptions into SQL text

    A shallow embedding of [dsorm/dsorm.py] and the properties of its
    fragment composition engine: quoting, joining, the [Where] predicate,
    statement assembly, the [Table] operations and the registration
    directory of [Database]. *)

From stdpp Require Import base option list strings gmap pretty.

Open Scope string_scope.
Open Scope list_scope.

(** ** Python exceptions and results *)

(** The module defines no exception class of its own: every failure it can
    raise is one of these builtins. *)
Inductive exn := KeyError | TypeError | AttributeError.

(** [type(e).__name__] *)
Definition exn_class (e : exn) : string :=
  match e with
  | KeyError => "KeyError"
  | TypeError => "TypeError"
  | AttributeError => "AttributeError"
  end.

Inductive result (A : Type) : Type :=
| Ok (a : A)
| Raise (e : exn).
Arguments Ok {A} a.
Arguments Raise {A} e.

#[global] Instance result_ret : MRet result := @Ok.
#[global] Instance result_bind : MBind result := λ A B f m,
  match m with Ok a => f a | Raise e => Raise e end.
#[global] Instance result_fmap : FMap result := λ A B f m,
  match m with Ok a => Ok (f a) | Raise e => Raise e end.

(** ** Python values *)

Definition NL : string := String (Ascii.ascii_of_nat 10) EmptyString.
Definition TAB : string := String (Ascii.ascii_of_nat 9) EmptyString.

(** The module never computes with a float, it only prints it: a float is
    represented by the text [str] gives for it. *)
Record pyfloat := PyFloat { float_str : string }.

(** The values an f-string hole of the module can receive.  [SStr] is an
    instance of [str] itself.  [SStrSub] is an instance of a proper subclass
    of [str] (a member of a [class Color(str, Enum)], say), given by its
    characters and by the text that formatting it gives, which its class
    decides: it is a [str] for [isinstance] and for [str.join], but its
    [type] is not [str]. *)
Inductive scalar :=
| SNone
| SBool (b : bool)
| SInt (n : Z)
| SFloat (x : pyfloat)
| SStr (s : string)
| SStrSub (data shown : string).

(** [f"{v}"] *)
Definition format (v : scalar) : string :=
  match v with
  | SNone => "None"
  | SBool true => "True"
  | SBool false => "False"
  | SInt n => pretty n
  | SFloat x => float_str x
  | SStr s => s
  | SStrSub _ shown => shown
  end.

(** What [ds_name] and [ds_sql] can observe of an instance of a [DSObject]
    subclass: the result of its [sql()] method and of reading its [name] and
    [identifier] attributes ([AttributeError] where the class has none). *)
Module DSObject.
Record t := mk {
  sql : result string;
  name : result scalar;
  identifier : result scalar
}.
End DSObject.

(** [SQLFragment = Union[DSObject, str, int, float]], extended with the other
    scalars a caller can pass where [t.Any] is accepted. *)
Inductive value :=
| Lit (v : scalar)
| Obj (o : DSObject.t).

Definition VStr (s : string) : value := Lit (SStr s).
Definition VInt (n : Z) : value := Lit (SInt n).

(** What [joinmap] asks of the thing it is given: whether it is a [str],
    whether it is an [Iterable], and its elements when it is iterated. *)
Class PyItem (A : Type) := {
  isinstance_str : A → bool;
  isinstance_Iterable : A → bool;
  iterate : A → result (list A)
}.

(** Iterating a string yields its characters as strings of length one. *)
Definition characters (s : string) : list string :=
  (λ c, String c EmptyString) <$> String.list_ascii_of_string s.

#[global] Instance str_item : PyItem string := {|
  isinstance_str _ := true;
  isinstance_Iterable _ := true;
  iterate s := Ok (characters s)
|}.

(** Of the values of the model only a string, of [str] or of a subclass, is
    iterable; an instance of a [DSObject] subclass is not. *)
#[global] Instance value_item : PyItem value := {|
  isinstance_str v :=
    match v with Lit (SStr _) | Lit (SStrSub _ _) => true | _ => false end;
  isinstance_Iterable v :=
    match v with Lit (SStr _) | Lit (SStrSub _ _) => true | _ => false end;
  iterate v :=
    match v with
    | Lit (SStr s) | Lit (SStrSub s _) => Ok (VStr <$> characters s)
    | _ => Raise TypeError
    end
|}.

(** [Fragments = Union[Iterable, SQLFragment]]: [Many] is an iterable other
    than a string (a list, the keys view of a dict) given by its elements in
    iteration order; [One] is a single item, which may be a string, the one
    kind of item that Python also counts as an [Iterable]. *)
Inductive Fragments (A : Type) :=
| One (v : A)
| Many (items : list A).
Arguments One {A} v.
Arguments Many {A} items.

(** A dict keeps its items in insertion order. *)
Definition pydict (K V : Type) : Type := list (K * V).

Section pydict.
Context {K V : Type} `{EqDecision K}.

(** [d.get(k)] *)
Fixpoint dict_get (d : pydict K V) (k : K) : option V :=
  match d with
  | [] => None
  | (k', v) :: d' => if decide (k' = k) then Some v else dict_get d' k
  end.

(** [k in d] *)
Definition dict_contains (d : pydict K V) (k : K) : bool :=
  bool_decide (is_Some (dict_get d k)).

(** [d[k]] *)
Definition dict_getitem (d : pydict K V) (k : K) : result V :=
  match dict_get d k with
  | Some v => Ok v
  | None => Raise KeyError
  end.

Definition dict_keys (d : pydict K V) : list K := fst <$> d.
Definition dict_items (d : pydict K V) : list (K * V) := d.
End pydict.

(** ** SECTION 1: SQL Command Clause Order Enumerations *)

Inductive StatementType :=
| CreateTableType
| SelectType
| DeleteType
| InsertType
| UpdateType.

#[global] Instance StatementType_eq_dec : EqDecision StatementType.
Proof. solve_decision. Defined.

(** The members of each enumeration with their values, in definition order. *)
Definition declared (T : StatementType) : list (string * Z) :=
  match T with
  | CreateTableType => [("CREATE", 1); ("COLUMN", 2); ("CONSTRAINT", 3)]
  | SelectType =>
      [("CTE", 1); ("SELECT", 2); ("FROM", 4); ("JOIN", 6); ("WHERE", 7);
       ("GROUP", 9); ("HAVING", 10); ("ORDER", 11); ("LIMIT", 12); ("OFFSET", 13)]
  | DeleteType => [("FROM", 1); ("WHERE", 2)]
  | InsertType =>
      [("CTE", 1); ("INSERT", 2); ("COLUMNS", 3); ("FROM", 4); ("VALUES", 5)]
  | UpdateType => [("CTE", 1); ("UPDATE", 2); ("SET", 3); ("WHERE", 4)]
  end%Z.

(** A member of an enumeration: [SelectType.FROM] and [DeleteType.FROM] are
    different members. *)
Record clause := Member { member_of : StatementType; member_name : string }.

#[global] Instance clause_eq_dec : EqDecision clause.
Proof. solve_decision. Defined.

(** [for clause in T]: the members in definition order. *)
Definition members (T : StatementType) : list clause :=
  (λ m, Member T m.1) <$> declared T.

(** ** SECTION 3: Utility functions *)

Definition LINE_AND_SEPERATOR : string := NL +:+ TAB +:+ "AND ".
Definition COMMAND_SEPERATOR : string := ";" +:+ NL +:+ NL.

Definition ds_name (o : value) (qualify : bool) : result scalar :=
  match o with
  | Obj ob => if qualify then DSObject.identifier ob else DSObject.name ob
  | Lit v => Ok v
  end.

Definition ds_qname (o : value) : result scalar := ds_name o true.

Definition ds_sql (o : value) : result scalar :=
  match o with
  | Obj ob => SStr <$> DSObject.sql ob
  | Lit v => Ok v
  end.

(** [seperator.join(parts)]: every part has to be an instance of [str]; of
    an instance of a subclass the characters are taken. *)
Definition str_join (seperator : string) (parts : list scalar) : result string :=
  strs ← mapM (λ p, match p with
                    | SStr s | SStrSub s _ => Ok s
                    | _ => Raise TypeError
                    end) parts;
  Ok (String.concat seperator strs).

(** [seperator.join(map(f, items))] *)
Definition join_map {A : Type} (items : list A) (f : A → result scalar)
    (seperator : string) : result scalar :=
  parts ← mapM f items;
  SStr <$> str_join seperator parts.

Definition joinmap {A : Type} `{PyItem A} (o : Fragments A)
    (f : A → result scalar) (seperator : string) : result scalar :=
  match o with
  | Many items => join_map items f seperator
  | One v =>
      if isinstance_Iterable v && negb (isinstance_str v)
      then items ← iterate v; join_map items f seperator
      else f v
  end.

(** The cast is looked up by the exact type of [o]: [bool] is not [int], and
    a subclass of [str] is not [str]. *)
Definition ds_quote (o : value) : result string :=
  match o with
  | Lit (SStr x) => Ok ("'" +:+ x +:+ "'")
  | Lit (SInt n) => Ok (pretty n)
  | Lit (SFloat x) => Ok (float_str x)
  | _ => Raise KeyError
  end.

(** ** SECTION 4: SQL Component Classes *)

Module Where.

Module Comparison.
Record t := mk {
  column : string;
  target : value;
  operator : string
}.

Definition sql (self : t) : result string :=
  q ← ds_quote (target self);
  Ok (column self +:+ " " +:+ operator self +:+ " " +:+ q).

Definition object (self : t) : DSObject.t :=
  DSObject.mk (sql self) (Raise AttributeError) (Raise AttributeError).
End Comparison.

Module In.
Record t := mk {
  column : value;
  target : Fragments value;
  invert : bool
}.

Definition sql (self : t) : result string :=
  c ← ds_qname (column self);
  items ← joinmap (target self) (λ o, SStr <$> ds_quote o) ", ";
  Ok (format c +:+ " " +:+ (if invert self then "NOT" else "")
      +:+ " IN (" +:+ format items +:+ ")").

Definition object (self : t) : DSObject.t :=
  DSObject.mk (sql self) (Raise AttributeError) (Raise AttributeError).
End In.

(** The field [where] is a dict keyed by column names, or [None]. *)
Record t := mk { where_ : option (pydict string value) }.

(** The loop of [sql]: one [Comparison] is appended for every item whose
    value is a [str]. *)
Definition clause_list (items : list (string * value)) : list Comparison.t :=
  foldl (λ acc kv,
           if isinstance_str kv.2
           then acc ++ [Comparison.mk kv.1 kv.2 "="]
           else acc)
        [] items.

Definition sql (self : t) : result string :=
  match where_ self with
  | None | Some [] => Ok ""
  | Some d =>
      r ← joinmap (Many (Obj ∘ Comparison.object <$> clause_list (dict_items d)))
            ds_sql LINE_AND_SEPERATOR;
      Ok ("WHERE " +:+ format r)
  end.

Definition object (self : t) : DSObject.t :=
  DSObject.mk (sql self) (Raise AttributeError) (Raise AttributeError).
End Where.

(** The [where] argument of the table operations: [None], a dict, or a
    [Where] object. *)
Inductive where_arg :=
| WNone
| WDict (d : pydict string value)
| WWhere (w : Where.t).

Definition ds_where (where_ : where_arg) : Where.t :=
  match where_ with
  | WWhere w => w
  | WDict d => Where.mk (Some d)
  | WNone => Where.mk None
  end.

Module Statement.
Record t := mk {
  statement_type : StatementType;
  components : pydict clause string;
  values : option (pydict string value)
}.

(** The clauses the comprehension of [sql] visits. *)
Definition emitted (self : t) : list clause :=
  filter (λ clause, dict_contains (components self) clause)
         (members (statement_type self)).

Definition sql (self : t) : result string :=
  parts ← mapM (λ clause,
                  c ← dict_getitem (components self) clause;
                  ds_sql (VStr c))
               (emitted self);
  str_join NL parts.
End Statement.

(** Truth value of a [str]: only the empty string is false. *)
Definition truthy (s : string) : bool :=
  match s with
  | EmptyString => false
  | String _ _ => true
  end.

Module Column.
(** [_table] is the back-reference to the owning table, set when the table
    is constructed.  A column only ever reads the name of its table, so the
    reference is kept as that name ([Some None] for a table whose name is
    [None]). *)
Record t := mk {
  name : string;
  sqltype : string;
  unique : bool;
  nullable : bool;
  pkey : bool;
  _table : option (option string)
}.

Definition sql (self : t) : string :=
  let blocks := [name self; sqltype self] in
  let blocks := if negb (nullable self) then blocks ++ ["NOT NULL"] else blocks in
  let blocks := if unique self then blocks ++ ["UNIQUE"] else blocks in
  let blocks := if pkey self then blocks ++ ["PRIMARY KEY"] else blocks in
  String.concat " " blocks.

Definition identifier (self : t) : string :=
  match _table self with
  | Some (Some table_name) =>
      if truthy table_name
      then table_name +:+ "." +:+ name self
      else name self
  | _ => name self
  end.

Definition object (self : t) : DSObject.t :=
  DSObject.mk (Ok (sql self)) (Ok (SStr (name self))) (Ok (SStr (identifier self))).

(** [c.table = table] *)
Definition set_table (table_name : option string) (self : t) : t :=
  mk (name self) (sqltype self) (unique self) (nullable self) (pkey self)
     (Some table_name).
End Column.

Module Table.
Record t := mk {
  column : list Column.t;
  name : option string;
  constraints : list value;
  schema : string
}.

(** The value of the attribute [name]: a [str] or [None]. *)
Definition name_value (self : t) : scalar :=
  match name self with
  | Some n => SStr n
  | None => SNone
  end.

Definition columns_as_values (self : t) : list value :=
  Obj ∘ Column.object <$> column self.

Definition sql (self : t) : result string :=
  body ← joinmap (Many (columns_as_values self ++ constraints self)) ds_sql ", ";
  Ok ("CREATE TABLE IF NOT EXISTS " +:+ format (name_value self) +:+ " (" +:+ NL
      +:+ " " +:+ format body +:+ ")").

Definition pkey (self : t) : list Column.t :=
  filter (λ c, Column.pkey c) (column self).

Definition identifier (self : t) : result scalar :=
  if truthy (schema self)
  then match name self with
       | Some n => Ok (SStr (schema self +:+ "." +:+ n))
       | None => Raise TypeError
       end
  else Ok (name_value self).

Definition object (self : t) : DSObject.t :=
  DSObject.mk (sql self) (Ok (name_value self)) (identifier self).

(** [columns if columns else self.column]: [None] and the empty list are
    both false. *)
Definition selected (self : t) (columns : option (list value)) : list value :=
  match columns with
  | Some (c :: cs) => c :: cs
  | _ => columns_as_values self
  end.

Definition select (self : t) (where_ : where_arg)
    (columns : option (list value)) : result string :=
  cols ← joinmap (Many (selected self columns)) ds_qname ", ";
  w ← ds_sql (Obj (Where.object (ds_where where_)));
  Ok ("SELECT " +:+ format cols +:+ " " +:+ NL
      +:+ " FROM " +:+ format (name_value self) +:+ " " +:+ NL
      +:+ " " +:+ format w).

Definition insert (self : t) (data : pydict string value) (replace : bool)
    : result (string * pydict string value) :=
  let k := Many (dict_keys data) in
  names ← joinmap k (λ x, ds_name (VStr x) false) ", ";
  holes ← joinmap k (λ x, Ok (SStr (":" +:+ x))) ", ";
  Ok ((if replace then "REPLACE" else "INSERT") +:+ " INTO "
      +:+ format (name_value self) +:+ " (" +:+ format names
      +:+ ") VALUES(" +:+ format holes +:+ ");",
      data).

Definition delete (self : t) (where_ : where_arg) : result (string * where_arg) :=
  w ← ds_sql (Obj (Where.object (ds_where where_)));
  Ok ("DELETE FROM " +:+ format (name_value self) +:+ " " +:+ NL
      +:+ " " +:+ format w,
      where_).
End Table.

Module ForeignKey.
Record t := mk {
  column : Fragments value;
  reference_table : Table.t;
  reference_column : list value
}.

Definition name (self : t) : result string :=
  cols ← joinmap (column self) (λ o, ds_name o false) ", ";
  Ok ("Fkey on " +:+ format cols).

Definition sql (self : t) : result string :=
  cols ← joinmap (column self) (λ o, ds_name o false) ", ";
  table ← ds_name (Obj (Table.object (reference_table self))) false;
  refs ← joinmap (Many (reference_column self)) (λ o, ds_name o false) ", ";
  Ok ("FOREIGN KEY (" +:+ format cols +:+ ") REFERENCES " +:+ format table
      +:+ "(" +:+ format refs +:+ ")").

Definition object (self : t) : DSObject.t :=
  DSObject.mk (sql self) (SStr <$> name self) (Raise AttributeError).

(** The number of columns on each side of the key; a single fragment given
    as [column] is one column. *)
Definition local_count (self : t) : nat :=
  match column self with
  | One _ => 1
  | Many items => length items
  end.

Definition referenced_count (self : t) : nat := length (reference_column self).
End ForeignKey.

(** ** SECTION 5: Database *)

(** The objects that register themselves and that the operations below read
    back.  ([Column] and [Pragma] objects register in the same way under
    their own class names; no operation modelled here reads their entries.) *)
Inductive registered :=
| RTable (t : Table.t)
| RForeignKey (fk : ForeignKey.t).

Module Database.
(** [information_schema], a [defaultdict(dict)]: class name, then object
    name ([None] for a table constructed without a name), to object. *)
Abbreviation directory := (gmap string (gmap (option string) registered)).

(** [information_schema[kind]]: reading a key the defaultdict does not hold
    stores an empty dict under it. *)
Definition of_kind (kind : string) (s : directory)
    : gmap (option string) registered * directory :=
  let d := default ∅ (s !! kind) in
  (d, <[kind := d]> s).

Definition table (o : Table.t + string) (s : directory)
    : result registered * directory :=
  match o with
  | inl t => (Ok (RTable t), s)
  | inr o =>
      let '(tables, s') := of_kind "Table" s in
      (match tables !! Some o with
       | Some found => Ok found
       | None => Raise KeyError
       end, s')
  end.
End Database.

Module RegisteredObject.
(** [self.db.information_schema[type(self).__name__][self.name] = self]:
    the inner dict is fetched before [self.name] is read. *)
Definition __post_init__ (kind : string) (name : result (option string))
    (self : registered) (s : Database.directory)
    : result unit * Database.directory :=
  let '(d, s') := Database.of_kind kind s in
  match name with
  | Ok n => (Ok tt, <[kind := <[n := self]> d]> s')
  | Raise e => (Raise e, s')
  end.
End RegisteredObject.

(** [Table(column, name, constraints, schema)]: attaches the columns, then
    registers the table.  The table returned is the table as it stands when
    the constructor returns.  The source attaches by assignment to the
    [Column] objects it is given, so a column that is later given to another
    table points to that table from then on, also in the table that held it
    first, whereas the directory of the model keeps the earlier table as it
    was registered.  Of a table registered before a later construction only
    what that construction cannot change is stated: its name, its schema and
    the definitions of its columns. *)
Definition Table_init (column : list Column.t) (name : option string)
    (constraints : list value) (schema : string) (s : Database.directory)
    : Table.t * Database.directory :=
  let self := Table.mk (Column.set_table name <$> column) name constraints schema in
  (self, (RegisteredObject.__post_init__ "Table" (Ok name) (RTable self) s).2).

(** [ForeignKey(column, reference_table, reference_column)]: the only step
    that can fail is rendering the derived name under which it registers. *)
Definition ForeignKey_init (column : Fragments value) (reference_table : Table.t)
    (reference_column : list value) (s : Database.directory)
    : result ForeignKey.t * Database.directory :=
  let self := ForeignKey.mk column reference_table reference_column in
  let '(r, s') := RegisteredObject.__post_init__ "ForeignKey"
                    (Some <$> ForeignKey.name self) (RForeignKey self) s in
  ((λ _, self) <$> r, s').

(** [Table.fkey(on_column)] *)
Definition Table_fkey (self : Table.t) (on_column : option (Fragments value))
    (s : Database.directory) : result ForeignKey.t * Database.directory :=
  let primary := Obj ∘ Column.object <$> Table.pkey self in
  let on_column := match on_column with
                   | None => Many primary
                   | Some c => c
                   end in
  ForeignKey_init on_column self primary s.

(** ** The table of the scenarios *)

Definition id_column : Column.t := Column.mk "id" "INTEGER" false true true None.
Definition name_column : Column.t := Column.mk "name" "TEXT" false false false None.

(** [Table(name="users", column=[Column(name="id", sqltype="INTEGER",
    pkey=True), Column(name="name", sqltype="TEXT", nullable=False)])],
    constructed in an empty directory. *)
Definition users : Table.t :=
  (Table_init [id_column; name_column] (Some "users") [] "Main" ∅).1.

(** ** Vocabulary of the statements *)

(** The entries of a mapping whose value is an instance of [str] itself, in
    order. *)
Definition string_entries (d : pydict string value) : list (string * string) :=
  omap (λ kv, match kv.2 with
              | Lit (SStr s) => Some (kv.1, s)
              | _ => None
              end) d.

(** The comparison [Where.sql] builds for a string-valued entry. *)
Definition comparison_of (ks : string * string) : Where.Comparison.t :=
  Where.Comparison.mk ks.1 (VStr ks.2) "=".

(** The text of the equality comparison of a column with a string. *)
Definition equality_text (ks : string * string) : string :=
  ks.1 +:+ " = '" +:+ ks.2 +:+ "'".

(** A [WHERE] clause holding exactly the comparisons [cs]. *)
Definition where_clause_of (cs : list Where.Comparison.t) (text : string) : Prop :=
  ∃ rendered, mapM Where.Comparison.sql cs = Ok rendered
              ∧ text = "WHERE " +:+ String.concat LINE_AND_SEPERATOR rendered.

(** Whether [pattern] occurs in [text]. *)
Definition occurs (pattern text : string) : bool :=
  bool_decide (is_Some (String.index 0 pattern text)).

(** Whether a value is an instance of a proper subclass of [str]. *)
Definition str_subclass (v : value) : bool :=
  match v with
  | Lit (SStrSub _ _) => true
  | _ => false
  end.

(** No value of the mapping is an instance of a proper subclass of [str]:
    every value that is a string is a plain [str]. *)
Definition plain_values (d : pydict string value) : Prop :=
  Forall (λ kv, str_subclass kv.2 = false) d.

(** The comparison the loop of [Where.sql] appends for an item, if any. *)
Definition entry_comparison (kv : string * value) : option Where.Comparison.t :=
  if isinstance_str kv.2 then Some (Where.Comparison.mk kv.1 kv.2 "=") else None.

(** What of a registered table no later construction can change: its name,
    its schema and the definitions of its columns. *)
Definition table_definition (r : registered)
    : option (option string * string * list string) :=
  match r with
  | RTable t => Some (Table.name t, Table.schema t, Column.sql <$> Table.column t)
  | RForeignKey _ => None
  end.

(** The directory of tables holds under every name a [Table] object that
    carries this name. *)
Definition tables_named (s : Database.directory) : Prop :=
  ∀ tables o found,
    s !! "Table" = Some tables → tables !! o = Some found →
    ∃ t, found = RTable t ∧ Table.name t = o.

(** What resolving the name [o] gives in the directory [s]. *)
Definition resolve (o : string) (s : Database.directory) : result registered :=
  (Database.table (inr o) s).1.

(** A literal that [ds_quote] has a cast for. *)
Definition quotable (o : value) : bool :=
  match o with
  | Lit (SStr _) | Lit (SInt _) | Lit (SFloat _) => true
  | _ => false
  end.

(** The three optional keywords of a column definition. *)
Definition column_keywords (c : Column.t) : string :=
  (if Column.nullable c then "" else " NOT NULL")
  +:+ (if Column.unique c then " UNIQUE" else "")
  +:+ (if Column.pkey c then " PRIMARY KEY" else "").

(** * Properties *)

(** ** The result monad *)

Lemma mapM_Ok {A B : Type} (f : A → result B) (g : A → B) (l : list A) :
  (∀ x, x ∈ l → f x = Ok (g x)) → mapM f l = Ok (g <$> l).
Proof.
  induction l as [|x l IH]; intros Hf; [done|].
  cbn. rewrite (Hf x) by left. cbn.
  rewrite IH; [done|]. intros y Hy. apply Hf. by right.
Qed.

Lemma str_join_strings (seperator : string) (l : list string) :
  str_join seperator (SStr <$> l) = Ok (String.concat seperator l).
Proof.
  unfold str_join.
  rewrite (mapM_Ok _ (λ p, match p with SStr s => s | _ => "" end)).
  - cbn. f_equal. f_equal. rewrite <- list_fmap_compose. by rewrite list_fmap_id.
  - intros p [s [-> _]]%list_elem_of_fmap. done.
Qed.

Lemma join_map_text {A : Type} (items : list A) (f : A → result scalar)
    (g : A → string) (seperator : string) :
  (∀ x, x ∈ items → f x = Ok (SStr (g x))) →
  join_map items f seperator = Ok (SStr (String.concat seperator (g <$> items))).
Proof.
  intros Hf. unfold join_map.
  rewrite (mapM_Ok f (λ x, SStr (g x))) by done. cbn.
  rewrite (list_fmap_compose g SStr), str_join_strings. done.
Qed.

(** ** Quoting *)

(** C3, as amended.  [ds_quote] wraps a string in single quotes and gives an
    integer or a float as its [str] text, unquoted; a value of any other
    kind (a boolean, [None], an object) is not stringified: the lookup of the
    cast by exact type misses and the call raises the builtin [KeyError]. *)
Theorem ds_quote_by_exact_kind (o : value) :
  (∀ x, ds_quote (VStr x) = Ok ("'" +:+ x +:+ "'"))
  ∧ (∀ n, ds_quote (VInt n) = Ok (pretty n))
  ∧ (∀ x, ds_quote (Lit (SFloat x)) = Ok (float_str x))
  ∧ ((∀ x, o ≠ VStr x) → (∀ n, o ≠ VInt n) → (∀ x, o ≠ Lit (SFloat x)) →
     ds_quote o = Raise KeyError ∧ exn_class KeyError = "KeyError").
Proof.
  split; [done|]. split; [done|]. split; [done|].
  intros Hstr Hint Hfloat. split; [|done].
  destruct o as [[| | n | x | s | data shown]|ob]; try done.
  - by destruct (Hint n).
  - by destruct (Hfloat x).
  - by destruct (Hstr s).
Qed.

Lemma ds_quote_by_exact_kind_witness :
  ds_quote (Lit (SBool true)) = Raise KeyError
  ∧ ds_quote (VInt (-7)) = Ok "-7"
  ∧ ds_quote (VStr "alice") = Ok "'alice'".
Proof.
  split; [|split].
  - apply (ds_quote_by_exact_kind (Lit (SBool true))); intros; discriminate.
  - apply (ds_quote_by_exact_kind (Lit SNone)).
  - apply (ds_quote_by_exact_kind (Lit SNone)).
Defined.

(** C3, as stated, fails at [True]: the error raised is a [KeyError], not an
    error of a class named [UnsupportedLiteralKind]. *)
Lemma ds_quote_bool_not_UnsupportedLiteralKind :
  ¬ ∃ e, ds_quote (Lit (SBool true)) = Raise e
         ∧ exn_class e = "UnsupportedLiteralKind".
Proof. intros [e [[= <-] H]]. discriminate H. Qed.

(** ** Joining *)

(** C10.  [joinmap] applied to a single string is the per-item function
    applied to the whole string, although a string is an [Iterable]: its
    characters are never rendered one by one.  The same holds for any single
    value; only an iterable that is not a string is rendered element by
    element and joined with the separator. *)
Theorem joinmap_string_is_single (s : string) (f : value → result scalar)
    (seperator : string) :
  isinstance_Iterable (VStr s) = true
  ∧ joinmap (One (VStr s)) f seperator = f (VStr s)
  ∧ (∀ v, joinmap (One v) f seperator = f v)
  ∧ (∀ items, joinmap (Many items) f seperator
              = parts ← mapM f items; SStr <$> str_join seperator parts)
  ∧ (∀ (g : value → string) items,
       joinmap (Many items) (λ x, Ok (SStr (g x))) seperator
       = Ok (SStr (String.concat seperator (g <$> items))))
  ∧ joinmap (One (VStr "ab")) (λ v, SStr <$> ds_quote v) ", " = Ok (SStr "'ab'")
  ∧ joinmap (Many [VStr "a"; VStr "b"]) (λ v, SStr <$> ds_quote v) ", "
    = Ok (SStr "'a', 'b'").
Proof.
  repeat split; try done.
  - intros [[]|]; done.
  - intros g items. cbn. by apply join_map_text.
Qed.

Lemma mapM_cons {A B : Type} (f : A → result B) (x : A) (l : list A) :
  mapM f (x :: l) = y ← f x; k ← mapM f l; Ok (y :: k).
Proof. reflexivity. Qed.

Lemma mapM_fmap {A B C : Type} (h : A → B) (f : B → result C) (l : list A) :
  mapM f (h <$> l) = mapM (f ∘ h) l.
Proof. induction l as [|x l IH]; [done|]. cbn. by rewrite IH. Qed.

Lemma join_map_fmap {A B : Type} (h : A → B) (items : list A)
    (f : B → result scalar) (seperator : string) :
  join_map (h <$> items) f seperator = join_map items (f ∘ h) seperator.
Proof. unfold join_map. by rewrite mapM_fmap. Qed.

Lemma mapM_total {A B : Type} (f : A → result B) (l : list A) :
  (∀ x, x ∈ l → ∃ y, f x = Ok y) →
  ∃ parts, mapM f l = Ok parts ∧ Forall2 (λ x y, f x = Ok y) l parts.
Proof.
  induction l as [|x l IH]; intros Hf.
  - exists []. by split.
  - destruct (Hf x) as [y Hy]; [by left|].
    destruct IH as (parts & Hparts & Hall).
    { intros z Hz. apply Hf. by right. }
    exists (y :: parts). split; [|by constructor].
    by rewrite mapM_cons, Hy, Hparts.
Qed.

Lemma mapM_Raise {A B : Type} (f : A → result B) (e : exn) (l : list A) :
  (∀ x, x ∈ l → (∃ y, f x = Ok y) ∨ f x = Raise e) →
  Exists (λ x, f x = Raise e) l →
  mapM f l = Raise e.
Proof.
  induction l as [|x l IH]; intros Hf Hex; [by apply Exists_nil in Hex|].
  rewrite mapM_cons.
  destruct (Hf x) as [[y Hy]|Hx]; [by left| |by rewrite Hx].
  rewrite Hy. cbn. rewrite IH; [done| |].
  - intros z Hz. apply Hf. by right.
  - apply Exists_cons in Hex as [Hx|Hex]; [congruence|done].
Qed.

(** ** The predicate *)

Lemma clause_list_foldl (acc : list Where.Comparison.t) (items : list (string * value)) :
  foldl (λ acc kv,
           if isinstance_str kv.2
           then acc ++ [Where.Comparison.mk kv.1 kv.2 "="]
           else acc) acc items
  = acc ++ omap entry_comparison items.
Proof.
  revert acc. induction items as [|[k v] items IH]; intros acc; cbn.
  - by rewrite app_nil_r.
  - rewrite IH.
    destruct v as [[| | | | s | data shown]|]; cbn; rewrite <- ?app_assoc; done.
Qed.

Lemma clause_list_omap (d : pydict string value) :
  Where.clause_list d = omap entry_comparison d.
Proof. unfold Where.clause_list. by rewrite clause_list_foldl. Qed.

Lemma clause_list_string_entries (d : pydict string value) :
  plain_values d → Where.clause_list d = comparison_of <$> string_entries d.
Proof.
  rewrite clause_list_omap.
  induction 1 as [|[k v] d Hv _ IH]; [done|].
  destruct v as [[| | | | s | data shown]|]; cbn; try done.
  by rewrite IH.
Qed.

Lemma comparison_of_sql (ks : string * string) :
  Where.Comparison.sql (comparison_of ks) = Ok (equality_text ks).
Proof. reflexivity. Qed.

Lemma Comparison_sql_nonempty (c : Where.Comparison.t) (text : string) :
  Where.Comparison.sql c = Ok text → text ≠ "".
Proof.
  unfold Where.Comparison.sql. destruct (ds_quote _); [|done].
  cbn. intros [= <-]. by destruct (Where.Comparison.column c).
Qed.

Lemma Where_sql_cons (d : pydict string value) :
  d ≠ [] →
  Where.sql (Where.mk (Some d))
  = r ← join_map (Obj ∘ Where.Comparison.object <$> Where.clause_list d)
          ds_sql LINE_AND_SEPERATOR;
    Ok ("WHERE " +:+ format r).
Proof. by destruct d. Qed.

Lemma Where_sql_nonempty (d : pydict string value) :
  d ≠ [] → plain_values d →
  Where.sql (Where.mk (Some d))
  = Ok ("WHERE " +:+ String.concat LINE_AND_SEPERATOR
                       (equality_text <$> string_entries d)).
Proof.
  intros Hd Hp. rewrite (Where_sql_cons d Hd).
  rewrite (clause_list_string_entries d Hp), <- list_fmap_compose, join_map_fmap.
  by rewrite (join_map_text _ _ equality_text).
Qed.

Lemma entry_comparison_str_subclass (k : string) (v : value) :
  str_subclass v = true →
  ∃ c, entry_comparison (k, v) = Some c
       ∧ ds_sql (Obj (Where.Comparison.object c)) = Raise KeyError.
Proof. destruct v as [[| | | | s | data shown]|]; try done. by eexists. Qed.

Lemma Where_sql_str_subclass (d : pydict string value) :
  Exists (λ kv, str_subclass kv.2 = true) d →
  Where.sql (Where.mk (Some d)) = Raise KeyError.
Proof.
  intros Hex. rewrite Where_sql_cons by (by destruct Hex).
  unfold join_map. rewrite mapM_fmap, clause_list_omap.
  rewrite (mapM_Raise _ KeyError); [done| |].
  - intros [col [[| | | | |]|] op] _; (by right) || (left; by eexists).
  - induction Hex as [[k v] d Hv|[k v] d _ IH]; cbn.
    + destruct (entry_comparison_str_subclass k v Hv) as (c & -> & Hc).
      by left.
    + destruct (entry_comparison (k, v)); [by right|done].
Qed.

Lemma string_entries_all (d : pydict string value) :
  plain_values d → Forall (λ kv, isinstance_str kv.2 = true) d →
  length (string_entries d) = length d.
Proof.
  induction 1 as [|[k v] d Hp _ IH]; [done|]. intros [Hv Hd]%Forall_cons.
  destruct v as [[| | | | s | data shown]|]; try done. cbn. f_equal. by apply IH.
Qed.

Lemma clause_list_none (d : pydict string value) :
  Forall (λ kv, isinstance_str kv.2 = false) d → Where.clause_list d = [].
Proof.
  rewrite clause_list_omap.
  induction 1 as [|[k v] d Hv _ IH]; [done|].
  destruct v as [[| | | | s | data shown]|]; done.
Qed.

Lemma clause_list_skip (d1 d2 : pydict string value) (k : string) (v : value) :
  isinstance_str v = false →
  Where.clause_list (d1 ++ (k, v) :: d2) = Where.clause_list (d1 ++ d2).
Proof.
  intros Hv. rewrite !clause_list_omap, !omap_app. f_equal.
  destruct v as [[| | | | s | data shown]|]; done.
Qed.

(** C1, as amended.  [Where.sql()] returns the empty string for the empty
    mapping, never a bare [WHERE].  For a mapping in which every value that
    is a string is a plain [str], and at least one value is, it returns a
    clause that begins with [WHERE ] and holds exactly one rendered
    comparison for every entry whose value is a string, in the order of the
    mapping, conjoined by the [AND] separator; a mapping with N entries whose
    values are all plain strings therefore renders exactly N comparisons. *)
Theorem Where_sql_one_comparison_per_string_entry (d : pydict string value) :
  Where.sql (Where.mk (Some [])) = Ok ""
  ∧ (plain_values d → string_entries d ≠ [] →
     Where.sql (Where.mk (Some d))
     = Ok ("WHERE " +:+ String.concat LINE_AND_SEPERATOR
                          (equality_text <$> string_entries d))
     ∧ Where.clause_list d = comparison_of <$> string_entries d
     ∧ where_clause_of (Where.clause_list d)
         ("WHERE " +:+ String.concat LINE_AND_SEPERATOR
                         (equality_text <$> string_entries d))
     ∧ length (Where.clause_list d) = length (string_entries d)
     ∧ (Forall (λ kv, isinstance_str kv.2 = true) d →
        length (Where.clause_list d) = length d)).
Proof.
  split; [done|]. intros Hp Hd.
  rewrite (clause_list_string_entries d Hp).
  split; [|split; [|split; [|split]]].
  - apply Where_sql_nonempty; [by intros ->|done].
  - done.
  - exists (equality_text <$> string_entries d). split; [|done].
    rewrite mapM_fmap. apply mapM_Ok. intros ks _. apply comparison_of_sql.
  - by rewrite length_fmap.
  - intros Hall. rewrite length_fmap. by apply string_entries_all.
Qed.

Lemma Where_sql_one_comparison_per_string_entry_witness :
  Where.sql (Where.mk (Some [("a", VStr "x"); ("b", VInt 1); ("c", VStr "z")]))
  = Ok ("WHERE a = 'x'" +:+ LINE_AND_SEPERATOR +:+ "c = 'z'")
  ∧ length (Where.clause_list [("a", VStr "x"); ("c", VStr "z")]) = 2.
Proof.
  split.
  - apply (Where_sql_one_comparison_per_string_entry
             [("a", VStr "x"); ("b", VInt 1); ("c", VStr "z")]).
    + repeat constructor.
    + discriminate.
  - refine (proj2 (proj2 (proj2 (proj2 (proj2
              (Where_sql_one_comparison_per_string_entry
                 [("a", VStr "x"); ("c", VStr "z")]) _ _)))) _).
    + repeat constructor.
    + discriminate.
    + repeat constructor.
Defined.

(** C1, as stated, fails at [{"a": 1}]: the mapping has one entry, the
    rendered text is [WHERE ] and holds no comparison, since a rendered
    comparison is never empty. *)
Lemma Where_sql_int_entry_renders_no_comparison :
  Where.sql (Where.mk (Some [("a", VInt 1)])) = Ok "WHERE "
  ∧ ¬ ∃ text cs,
        Where.sql (Where.mk (Some [("a", VInt 1)])) = Ok text
        ∧ length cs = length [("a", VInt 1)]
        ∧ where_clause_of cs text.
Proof.
  split; [done|].
  intros (text & cs & [= <-] & Hlen & rendered & Hr & Htext).
  destruct cs as [|c [|c' cs]]; try done.
  cbn in Hr. destruct (Where.Comparison.sql c) as [t|] eqn:Hc; [|done].
  cbn in Hr. injection Hr as <-. cbn in Htext.
  symmetry in Htext. injection Htext as Ht.
  by apply (Comparison_sql_nonempty c t).
Qed.

(** C8.  An entry whose value is not a string adds no comparison: removing it
    changes neither the list of comparisons nor, when other entries remain,
    the rendered text.  A non-empty mapping none of whose values is a string
    renders to [WHERE ] with nothing after it. *)
Theorem Where_sql_skips_non_strings (d : pydict string value) :
  (∀ d1 d2 k v,
     isinstance_str v = false →
     Where.clause_list (d1 ++ (k, v) :: d2) = Where.clause_list (d1 ++ d2)
     ∧ (d1 ++ d2 ≠ [] →
        Where.sql (Where.mk (Some (d1 ++ (k, v) :: d2)))
        = Where.sql (Where.mk (Some (d1 ++ d2)))))
  ∧ (d ≠ [] → Forall (λ kv, isinstance_str kv.2 = false) d →
     Where.clause_list d = [] ∧ Where.sql (Where.mk (Some d)) = Ok "WHERE ").
Proof.
  split.
  - intros d1 d2 k v Hv. split; [by apply clause_list_skip|].
    intros Hne. rewrite !Where_sql_cons; [|done|by destruct d1].
    by rewrite clause_list_skip.
  - intros Hd Hall. split; [by apply clause_list_none|].
    by rewrite Where_sql_cons, clause_list_none.
Qed.

Lemma Where_sql_skips_non_strings_witness :
  (Where.clause_list [("a", VInt 1); ("b", Lit (SBool true))] = []
   ∧ Where.sql (Where.mk (Some [("a", VInt 1); ("b", Lit (SBool true))]))
     = Ok "WHERE ")
  ∧ Where.sql (Where.mk (Some ([("a", VStr "x")] ++ ("b", VInt 1) :: [("c", VStr "z")])))
    = Where.sql (Where.mk (Some ([("a", VStr "x")] ++ [("c", VStr "z")]))).
Proof.
  split.
  - apply (Where_sql_skips_non_strings [("a", VInt 1); ("b", Lit (SBool true))]).
    + discriminate.
    + repeat constructor.
  - apply (Where_sql_skips_non_strings []).
    + reflexivity.
    + discriminate.
Defined.

(** ** Dicts *)

Section pydict_facts.
Context {K V : Type} `{EqDecision K}.

Lemma dict_contains_true (d : pydict K V) (k : K) :
  dict_contains d k ↔ is_Some (dict_get d k).
Proof. unfold dict_contains. apply bool_decide_spec. Qed.

Lemma dict_get_Some_elem (d : pydict K V) (k : K) (v : V) :
  NoDup (dict_keys d) → dict_get d k = Some v ↔ (k, v) ∈ d.
Proof.
  induction d as [|[k' v'] d IH]; cbn.
  - intros _. split; [done|]. by intros ?%elem_of_nil.
  - intros [Hk' Hd]%NoDup_cons. rewrite elem_of_cons. case_decide as Hk.
    + subst k'. split.
      * intros [= ->]. by left.
      * intros [[= ->]|Hin]; [done|]. destruct Hk'.
        apply list_elem_of_fmap. by exists (k, v).
    + rewrite (IH Hd). split; [by right|].
      intros [[= -> _]|Hin]; done.
Qed.

Lemma dict_get_Permutation (d d' : pydict K V) (k : K) :
  NoDup (dict_keys d) → d ≡ₚ d' → dict_get d k = dict_get d' k.
Proof.
  intros Hd Hp.
  assert (NoDup (dict_keys d')) as Hd'.
  { unfold dict_keys in *. by rewrite <- Hp. }
  destruct (dict_get d k) as [v|] eqn:Hg.
  - symmetry. apply dict_get_Some_elem; [done|].
    rewrite <- Hp. by apply dict_get_Some_elem.
  - destruct (dict_get d' k) as [v|] eqn:Hg'; [|done].
    apply dict_get_Some_elem in Hg'; [|done].
    rewrite <- Hp in Hg'. apply dict_get_Some_elem in Hg'; [|done]. congruence.
Qed.
End pydict_facts.

(** ** Statement assembly *)

Lemma Statement_parts (d : pydict clause string) (l : list clause) :
  mapM (λ clause, c ← dict_getitem d clause; ds_sql (VStr c))
       (filter (λ clause, dict_contains d clause) l)
  = Ok (SStr <$> omap (dict_get d) l).
Proof.
  induction l as [|c l IH]; [done|].
  rewrite filter_cons. cbn [omap list_omap].
  destruct (decide _) as [Hc|Hc].
  - apply dict_contains_true in Hc as [v Hv].
    rewrite mapM_cons, IH. unfold dict_getitem. by rewrite Hv.
  - rewrite IH. destruct (dict_get d c) as [v|] eqn:Hv; [|done].
    destruct Hc. apply dict_contains_true. by exists v.
Qed.

Lemma members_NoDup (T : StatementType) : NoDup (members T).
Proof. destruct T; refine (bool_decide_unpack _ _); vm_compute; exact I. Qed.

Lemma Statement_sql_omap (T : StatementType) (components : pydict clause string)
    (values : option (pydict string value)) :
  Statement.sql (Statement.mk T components values)
  = Ok (String.concat NL (omap (dict_get components) (members T))).
Proof.
  unfold Statement.sql, Statement.emitted. cbn [Statement.components Statement.statement_type].
  rewrite Statement_parts. cbn. apply str_join_strings.
Qed.

(** C2.  For every statement kind and every mapping from clauses to text,
    [Statement.sql] never fails; the clauses it emits are the members of the
    kind that are keys of the mapping, in the declared order of the kind;
    the text is their contents joined by line breaks; the empty mapping gives
    the empty text; and two mappings with the same items inserted in a
    different order give the same text. *)
Theorem Statement_sql_declared_order (T : StatementType)
    (components components' : pydict clause string)
    (values : option (pydict string value)) :
  Statement.sql (Statement.mk T [] values) = Ok ""
  ∧ Statement.emitted (Statement.mk T components values) `sublist_of` members T
  ∧ NoDup (Statement.emitted (Statement.mk T components values))
  ∧ (∀ c, c ∈ Statement.emitted (Statement.mk T components values)
          ↔ c ∈ members T ∧ is_Some (dict_get components c))
  ∧ Statement.sql (Statement.mk T components values)
    = Ok (String.concat NL
            (omap (dict_get components)
                  (Statement.emitted (Statement.mk T components values))))
  ∧ (NoDup (dict_keys components) → components' ≡ₚ components →
     Statement.sql (Statement.mk T components' values)
     = Statement.sql (Statement.mk T components values)).
Proof.
  split; [|split; [|split; [|split; [|split]]]].
  - rewrite Statement_sql_omap.
    by induction (members T) as [|c l IH].
  - apply sublist_filter.
  - apply NoDup_filter, members_NoDup.
  - intros c. unfold Statement.emitted. rewrite list_elem_of_filter. cbn.
    rewrite dict_contains_true. tauto.
  - rewrite Statement_sql_omap. do 2 f_equal.
    unfold Statement.emitted. cbn.
    induction (members T) as [|c l IH]; [done|].
    rewrite filter_cons. cbn. destruct (decide _) as [Hc|Hc].
    + cbn. by rewrite IH.
    + rewrite IH. destruct (dict_get components c) as [v|] eqn:Hv; [|done].
      destruct Hc. apply dict_contains_true. by exists v.
  - intros Hnd Hp. rewrite !Statement_sql_omap. do 2 f_equal.
    apply list_omap_ext, Forall2_same_length_lookup. split; [done|].
    intros i c c' Hc Hc'. assert (c = c') as <- by congruence.
    symmetry. by apply dict_get_Permutation.
Qed.

Lemma Statement_sql_declared_order_witness :
  Statement.sql
    (Statement.mk SelectType
       [(Member SelectType "WHERE", "WHERE a = 1");
        (Member SelectType "SELECT", "SELECT a");
        (Member SelectType "FROM", "FROM t")] None)
  = Statement.sql
      (Statement.mk SelectType
         [(Member SelectType "SELECT", "SELECT a");
          (Member SelectType "FROM", "FROM t");
          (Member SelectType "WHERE", "WHERE a = 1")] None).
Proof.
  apply Statement_sql_declared_order.
  - refine (bool_decide_unpack _ _). vm_compute. exact I.
  - apply (Permutation_app_comm [_] [_; _]).
Defined.

(** ** Table operations *)

Lemma ds_sql_Where (w : Where.t) :
  ds_sql (Obj (Where.object w)) = SStr <$> Where.sql w.
Proof. reflexivity. Qed.

Lemma joinmap_qualified_columns (t : Table.t) :
  joinmap (Many (Table.columns_as_values t)) ds_qname ", "
  = Ok (SStr (String.concat ", " (Column.identifier <$> Table.column t))).
Proof.
  unfold joinmap, Table.columns_as_values.
  rewrite join_map_fmap. by apply join_map_text.
Qed.

Lemma Table_select_all_columns (t : Table.t) (where_ : where_arg) (w : string) :
  Where.sql (ds_where where_) = Ok w →
  Table.select t where_ None
  = Ok ("SELECT " +:+ String.concat ", " (Column.identifier <$> Table.column t)
        +:+ " " +:+ NL +:+ " FROM " +:+ format (Table.name_value t)
        +:+ " " +:+ NL +:+ " " +:+ w).
Proof.
  intros Hw. unfold Table.select. cbn [Table.selected].
  rewrite joinmap_qualified_columns, ds_sql_Where, Hw. reflexivity.
Qed.

Lemma Table_select_result (t : Table.t) (where_ : where_arg) :
  Table.select t where_ None
  = (λ w, "SELECT " +:+ String.concat ", " (Column.identifier <$> Table.column t)
          +:+ " " +:+ NL +:+ " FROM " +:+ format (Table.name_value t)
          +:+ " " +:+ NL +:+ " " +:+ w)
    <$> Where.sql (ds_where where_).
Proof.
  unfold Table.select. cbn [Table.selected].
  rewrite joinmap_qualified_columns, ds_sql_Where.
  by destruct (Where.sql (ds_where where_)).
Qed.

Lemma joinmap_keys (keys : list string) (g : string → string) :
  joinmap (Many keys) (λ x, Ok (SStr (g x))) ", "
  = Ok (SStr (String.concat ", " (g <$> keys))).
Proof. unfold joinmap. by apply join_map_text. Qed.

(** C4.  For every table and every data mapping keyed by column names,
    [Table.insert] never fails and returns the text [INSERT INTO <name>
    (<keys>) VALUES(:<key>, ...);], with [REPLACE] for [INSERT] when
    [replace] is true, the keys in the order of the mapping and one named
    placeholder per key, paired with the data mapping itself. *)
Theorem Table_insert_placeholders (t : Table.t) (data : pydict string value)
    (replace : bool) :
  Table.insert t data replace
  = Ok ((if replace then "REPLACE" else "INSERT") +:+ " INTO "
        +:+ format (Table.name_value t)
        +:+ " (" +:+ String.concat ", " (dict_keys data)
        +:+ ") VALUES(" +:+ String.concat ", " ((λ k, ":" +:+ k) <$> dict_keys data)
        +:+ ");",
        data)
  ∧ length ((λ k, ":" +:+ k) <$> dict_keys data) = length data
  ∧ Table.insert users [("id", VInt 1); ("name", VStr "alice")] false
    = Ok ("INSERT INTO users (id, name) VALUES(:id, :name);",
          [("id", VInt 1); ("name", VStr "alice")])
  ∧ Table.insert users [("id", VInt 1); ("name", VStr "alice")] true
    = Ok ("REPLACE INTO users (id, name) VALUES(:id, :name);",
          [("id", VInt 1); ("name", VStr "alice")]).
Proof.
  split; [|split; [|done]].
  - unfold Table.insert.
    rewrite (joinmap_keys _ id), (joinmap_keys _ (λ k, ":" +:+ k)).
    by rewrite list_fmap_id.
  - unfold dict_keys. by rewrite !length_fmap.
Qed.

(** C7, as amended.  For the two-column table [users] of the scenario,
    [select(where={"name": "alice"})] yields the text [SELECT users.id,
    users.name \n FROM users \n WHERE name = 'alice'], the [\n] being line
    breaks: the selected columns are qualified with the table name, the
    [FROM] clause names the table, and the comparison equates the key of the
    mapping as it is given, unqualified, with the single-quoted literal.  In
    general the comparisons of a mapping are rendered from its keys as
    given when its string values are plain strings, and the call fails with
    [KeyError] when one of them is an instance of a subclass of [str]. *)
Theorem Table_select_users_by_name (t : Table.t) (d : pydict string value) :
  Table.select users (WDict [("name", VStr "alice")]) None
  = Ok ("SELECT users.id, users.name " +:+ NL +:+ " FROM users " +:+ NL
        +:+ " WHERE name = 'alice'")
  ∧ (d ≠ [] → plain_values d →
     Table.select t (WDict d) None
     = Ok ("SELECT " +:+ String.concat ", " (Column.identifier <$> Table.column t)
           +:+ " " +:+ NL +:+ " FROM " +:+ format (Table.name_value t)
           +:+ " " +:+ NL +:+ " " +:+ "WHERE "
           +:+ String.concat LINE_AND_SEPERATOR (equality_text <$> string_entries d)))
  ∧ (Exists (λ kv, str_subclass kv.2 = true) d →
     Table.select t (WDict d) None = Raise KeyError).
Proof.
  split; [done|]. split.
  - intros Hd Hp.
    rewrite (Table_select_all_columns t (WDict d) _ (Where_sql_nonempty d Hd Hp)).
    reflexivity.
  - intros Hex. rewrite Table_select_result. cbn [ds_where].
    by rewrite (Where_sql_str_subclass d Hex).
Qed.

Lemma Table_select_users_by_name_witness :
  Table.select users (WDict [("name", VStr "alice")]) None
  = Ok ("SELECT users.id, users.name " +:+ NL +:+ " FROM users " +:+ NL
        +:+ " WHERE name = 'alice'")
  ∧ Table.select users (WDict [("name", Lit (SStrSub "alice" "Name.ALICE"))]) None
    = Raise KeyError.
Proof.
  split.
  - refine (proj1 (proj2 (Table_select_users_by_name users [("name", VStr "alice")]))
              _ _).
    + discriminate.
    + repeat constructor.
  - refine (proj2 (proj2 (Table_select_users_by_name users
                            [("name", Lit (SStrSub "alice" "Name.ALICE"))])) _).
    left. reflexivity.
Defined.

(** C7, as stated, fails: the text rendered for the scenario is not the one
    with [users.name] in the comparison, whether the [\n] of the statement
    is read as a line break or as a backslash followed by [n]. *)
Lemma Table_select_users_where_is_unqualified :
  Table.select users (WDict [("name", VStr "alice")]) None
  ≠ Ok ("SELECT users.id, users.name " +:+ NL +:+ " FROM users " +:+ NL
        +:+ " WHERE users.name = 'alice'")
  ∧ Table.select users (WDict [("name", VStr "alice")]) None
    ≠ Ok "SELECT users.id, users.name \n FROM users \n WHERE users.name = 'alice'".
Proof. split; vm_compute; discriminate. Qed.

(** C9.  For every table, [select(where=None)] and [delete(where=None)] do
    not fail: [ds_where] wraps [None] into a [Where] object that renders to
    the empty string, so the text ends after the [FROM] line and no [WHERE]
    clause is emitted; for the table [users] the word [WHERE] occurs nowhere
    in either text. *)
Theorem Table_select_delete_without_where (t : Table.t) :
  ds_where WNone = Where.mk None
  ∧ Where.sql (ds_where WNone) = Ok ""
  ∧ Table.select t WNone None
    = Ok ("SELECT " +:+ String.concat ", " (Column.identifier <$> Table.column t)
          +:+ " " +:+ NL +:+ " FROM " +:+ format (Table.name_value t)
          +:+ " " +:+ NL +:+ " ")
  ∧ Table.delete t WNone
    = Ok ("DELETE FROM " +:+ format (Table.name_value t) +:+ " " +:+ NL +:+ " ",
          WNone)
  ∧ (∃ text, Table.select users WNone None = Ok text
             ∧ occurs "WHERE" text = false)
  ∧ (∃ text, Table.delete users WNone = Ok (text, WNone)
             ∧ occurs "WHERE" text = false).
Proof.
  repeat split.
  - by rewrite (Table_select_all_columns t WNone "").
  - by eexists.
  - by eexists.
Qed.

(** ** Foreign keys *)

Lemma ForeignKey_init_Ok (column : Fragments value) (t : Table.t)
    (refs : list value) (s : Database.directory) (nm : string) :
  ForeignKey.name (ForeignKey.mk column t refs) = Ok nm →
  (ForeignKey_init column t refs s).1 = Ok (ForeignKey.mk column t refs).
Proof.
  intros Hnm. unfold ForeignKey_init, RegisteredObject.__post_init__.
  rewrite Hnm. reflexivity.
Qed.

Lemma ForeignKey_name_of_columns (cols : list Column.t) (t : Table.t)
    (refs : list value) :
  ForeignKey.name (ForeignKey.mk (Many (Obj ∘ Column.object <$> cols)) t refs)
  = Ok ("Fkey on " +:+ String.concat ", " (Column.name <$> cols)).
Proof.
  unfold ForeignKey.name, joinmap. cbn [ForeignKey.column].
  rewrite join_map_fmap, (join_map_text _ _ Column.name); done.
Qed.

(** C5, as amended.  The constructor of [ForeignKey] does not compare the
    counts of local and referenced columns: whenever the name derived from
    the local columns can be rendered, the key is constructed with both sides
    as they were given.  For the key that [Table.fkey()] makes when no local
    column is given, the local and the referenced columns are both the
    primary key of the table, so their counts are equal. *)
Theorem ForeignKey_counts_unchecked (t : Table.t) (s : Database.directory)
    (column : Fragments value) (refs : list value) (nm : string) :
  (ForeignKey.name (ForeignKey.mk column t refs) = Ok nm →
   (ForeignKey_init column t refs s).1 = Ok (ForeignKey.mk column t refs))
  ∧ ∃ fk, (Table_fkey t None s).1 = Ok fk
          ∧ ForeignKey.column fk = Many (Obj ∘ Column.object <$> Table.pkey t)
          ∧ ForeignKey.reference_column fk = Obj ∘ Column.object <$> Table.pkey t
          ∧ ForeignKey.local_count fk = ForeignKey.referenced_count fk.
Proof.
  split; [apply ForeignKey_init_Ok|].
  eexists. split.
  - unfold Table_fkey. eapply ForeignKey_init_Ok, ForeignKey_name_of_columns.
  - cbn. by rewrite !length_fmap.
Qed.

Lemma ForeignKey_counts_unchecked_witness :
  (ForeignKey_init (Many [VStr "a"; VStr "b"]) users [VStr "id"] ∅).1
  = Ok (ForeignKey.mk (Many [VStr "a"; VStr "b"]) users [VStr "id"]).
Proof.
  refine (proj1 (ForeignKey_counts_unchecked users ∅ (Many [VStr "a"; VStr "b"])
                   [VStr "id"] "Fkey on a, b") _).
  reflexivity.
Defined.

(** C5, as stated, fails: a key with two local columns and one referenced
    column is constructed without any error. *)
Lemma ForeignKey_mismatched_counts_constructed :
  ∃ fk, (ForeignKey_init (Many [VStr "a"; VStr "b"]) users [VStr "id"] ∅).1 = Ok fk
        ∧ ForeignKey.local_count fk = 2
        ∧ ForeignKey.referenced_count fk = 1.
Proof.
  eexists. split; [by apply (ForeignKey_init_Ok _ _ _ _ "Fkey on a, b")|done].
Qed.

(** ** The registration directory *)

Lemma Database_table_found (s : Database.directory)
    (tables : gmap (option string) registered) (o : string) (found : registered) :
  s !! "Table" = Some tables → tables !! Some o = Some found →
  Database.table (inr o) s = (Ok found, s).
Proof.
  intros Hs Ho. unfold Database.table, Database.of_kind.
  rewrite Hs. cbn. rewrite Ho. by rewrite insert_id.
Qed.

Lemma Database_table_absent (s : Database.directory) (o : string) :
  (Database.of_kind "Table" s).1 !! Some o = None →
  (Database.table (inr o) s).1 = Raise KeyError.
Proof.
  unfold Database.table, Database.of_kind. cbn. by intros ->.
Qed.

Lemma Table_init_registers (column : list Column.t) (o : string)
    (constraints : list value) (schema : string) (s : Database.directory) :
  Database.table (inr o) (Table_init column (Some o) constraints schema s).2
  = (Ok (RTable (Table_init column (Some o) constraints schema s).1),
     (Table_init column (Some o) constraints schema s).2).
Proof.
  unfold Table_init, RegisteredObject.__post_init__, Database.of_kind. cbn.
  eapply Database_table_found; [by rewrite lookup_insert_eq|].
  by rewrite lookup_insert_eq.
Qed.

(** C6, as amended.  [Database.table] returns its argument when it is a
    [Table] object; when it is a name it returns the object registered under
    that name in the directory of tables, so after a table has been
    constructed with a name its name resolves to it; when the name is absent
    from the directory the lookup fails with the builtin [KeyError]. *)
Theorem Database_table_resolves (s : Database.directory) (t : Table.t)
    (o : string) :
  Database.table (inl t) s = (Ok (RTable t), s)
  ∧ (∀ tables found,
       s !! "Table" = Some tables → tables !! Some o = Some found →
       Database.table (inr o) s = (Ok found, s))
  ∧ (∀ column constraints schema,
       Database.table (inr o) (Table_init column (Some o) constraints schema s).2
       = (Ok (RTable (Table_init column (Some o) constraints schema s).1),
          (Table_init column (Some o) constraints schema s).2))
  ∧ ((Database.of_kind "Table" s).1 !! Some o = None →
     (Database.table (inr o) s).1 = Raise KeyError
     ∧ exn_class KeyError = "KeyError").
Proof.
  split; [done|]. split; [|split].
  - intros tables found. apply Database_table_found.
  - intros. apply Table_init_registers.
  - intros Ho. split; [by apply Database_table_absent|done].
Qed.

Lemma Database_table_resolves_witness :
  ((Database.table (inr "ghost") ∅).1 = Raise KeyError
   ∧ exn_class KeyError = "KeyError")
  ∧ Database.table (inr "users") {["Table" := {[Some "users" := RTable users]}]}
    = (Ok (RTable users), {["Table" := {[Some "users" := RTable users]}]}).
Proof.
  split.
  - refine (proj2 (proj2 (proj2 (Database_table_resolves ∅ users "ghost"))) _).
    reflexivity.
  - refine (proj1 (proj2 (Database_table_resolves _ users "users")) _ _ _ _).
    + apply lookup_singleton_eq.
    + apply lookup_singleton_eq.
Defined.

(** C6, as stated, fails at a name that is not registered: the error raised
    is a [KeyError], not an error of a class named [UnknownTable]. *)
Lemma Database_table_absent_not_UnknownTable :
  ¬ ∃ e, (Database.table (inr "ghost") ∅).1 = Raise e
         ∧ exn_class e = "UnknownTable".
Proof.
  intros [e [He Hc]].
  rewrite (Database_table_absent ∅ "ghost") in He by reflexivity.
  injection He as <-. discriminate Hc.
Qed.

(** * Further properties of the module *)

(** ** Strings and lists of results *)

Lemma append_cons (c : Ascii.ascii) (s t : string) :
  String c s +:+ t = String c (s +:+ t).
Proof. reflexivity. Qed.

Lemma append_nil_r (s : string) : s +:+ "" = s.
Proof. induction s as [|c s IH]; [done|]. by rewrite append_cons, IH. Qed.

Lemma append_assoc (s t u : string) : (s +:+ t) +:+ u = s +:+ (t +:+ u).
Proof. induction s as [|c s IH]; [done|]. by rewrite !append_cons, IH. Qed.

Lemma append_length (s t : string) :
  String.length (s +:+ t) = String.length s + String.length t.
Proof. induction s as [|c s IH]; [done|]. rewrite append_cons. cbn. by rewrite IH. Qed.

Lemma append_quote_inj (s t : string) : s +:+ "'" = t +:+ "'" → s = t.
Proof.
  revert t. induction s as [|c s IH]; intros [|d t]; try done.
  - rewrite append_cons. intros [= _ H]. by destruct t.
  - rewrite append_cons. intros [= _ H]. by destruct s.
  - rewrite !append_cons. intros [= -> H]. f_equal. by apply IH.
Qed.

Lemma str_join_non_string (seperator : string) (parts : list scalar) :
  Exists (λ p, isinstance_str (Lit p) = false) parts →
  str_join seperator parts = Raise TypeError.
Proof.
  intros Hex. unfold str_join. rewrite (mapM_Raise _ TypeError); [done| |].
  - intros [| | | | s | data shown] _; eauto.
  - eapply Exists_impl; [done|]. by intros [| | | | s | data shown] Hp.
Qed.

(** ** Joining and quoting *)

(** X1.  [joinmap] never turns a number into text.  A single literal comes
    back unchanged, whatever its kind; an iterable whose elements all render
    but one of which renders to something that is not an instance of [str]
    cannot be joined: the call raises [TypeError]. *)
Theorem joinmap_does_not_stringify {A : Type} `{PyItem A} (items : list A)
    (f : A → result scalar) (seperator : string) :
  (∀ v, joinmap (One (Lit v)) (λ o, ds_name o false) seperator = Ok v)
  ∧ ((∀ x, x ∈ items → ∃ y, f x = Ok y) →
     Exists (λ x, ∃ y, f x = Ok y ∧ isinstance_str (Lit y) = false) items →
     joinmap (Many items) f seperator = Raise TypeError).
Proof.
  split; [by intros [| | | | s | data shown]|].
  intros Hall Hex. cbn. unfold join_map.
  destruct (mapM_total f items Hall) as (parts & -> & Hparts). cbn.
  rewrite str_join_non_string; [done|].
  clear Hall. induction Hparts as [|x y l parts Hxy _ IH].
  - by apply Exists_nil in Hex.
  - apply Exists_cons in Hex as [(y' & Hy' & Hns)|Hex].
    + left. congruence.
    + right. by apply IH.
Qed.

Lemma joinmap_does_not_stringify_witness :
  joinmap (Many [VStr "a"; VInt 1]) (λ o, ds_name o false) ", " = Raise TypeError.
Proof.
  apply (joinmap_does_not_stringify [VStr "a"; VInt 1]).
  - intros x [->|[->|[]%elem_of_nil]%elem_of_cons]%elem_of_cons; by eexists.
  - right. left. by exists (SInt 1).
Defined.

(** X2.  [ds_quote] embeds a string verbatim between two quote characters:
    nothing is escaped, so the literal is two characters longer than the
    string, different strings give different literals, and quoting a literal
    again doubles the quotes on both sides. *)
Theorem ds_quote_verbatim (x y q : string) :
  (ds_quote (VStr x) = ds_quote (VStr y) → x = y)
  ∧ (ds_quote (VStr x) = Ok q →
     String.length q = String.length x + 2
     ∧ ds_quote (VStr q) = Ok ("''" +:+ x +:+ "''")).
Proof.
  split.
  - intros [= Hxy]. by apply append_quote_inj.
  - intros [= <-]. split.
    + change (S (String.length (x +:+ "'")) = String.length x + 2).
      rewrite append_length. cbn. lia.
    + cbn. f_equal. rewrite !append_assoc. reflexivity.
Qed.

Lemma ds_quote_verbatim_witness :
  String.length "'it's'" = String.length "it's" + 2
  ∧ ds_quote (VStr "'it's'") = Ok ("''" +:+ "it's" +:+ "''").
Proof.
  apply (ds_quote_verbatim "it's" "it's" "'it's'"). reflexivity.
Defined.

(** ** Columns and tables *)

(** X3.  The definition of a column is its name, a space and its type,
    followed by the keywords that apply, always in the order [NOT NULL],
    [UNIQUE], [PRIMARY KEY]; a column without a type is rendered with the
    space that separates the two all the same. *)
Theorem Column_sql_keyword_order (c : Column.t) :
  Column.sql c
  = Column.name c +:+ " " +:+ Column.sqltype c +:+ column_keywords c
  ∧ (Column.sqltype c = "" → column_keywords c = "" →
     Column.sql c = Column.name c +:+ " ").
Proof.
  assert (Column.sql c
          = Column.name c +:+ " " +:+ Column.sqltype c +:+ column_keywords c) as Hc.
  { destruct c as [n t u nl pk tb]. unfold Column.sql, column_keywords.
    destruct u, nl, pk; cbn; rewrite ?append_nil_r; reflexivity. }
  split; [done|]. intros Ht Hk. by rewrite Hc, Ht, Hk.
Qed.

Lemma Column_sql_keyword_order_witness :
  Column.sql (Column.mk "note" "" false true false None) = "note ".
Proof.
  apply (Column_sql_keyword_order (Column.mk "note" "" false true false None));
    reflexivity.
Defined.

Lemma Column_set_table_identifier (table_name : option string) (c : Column.t) :
  Column.identifier (Column.set_table table_name c)
  = match table_name with
    | Some n => if truthy n then n +:+ "." +:+ Column.name c else Column.name c
    | None => Column.name c
    end.
Proof. by destruct table_name. Qed.

(** X4.  Constructing a table points every one of its columns back to it
    and changes nothing else of a column.  From then on the identifier of
    each column is the table name, a dot and the column name, and that is
    how [select] lists the columns; for a table without a name, or with an
    empty one, the identifier stays the bare column name. *)
Theorem Table_init_attaches_columns (column : list Column.t)
    (name : option string) (constraints : list value) (schema : string)
    (s : Database.directory) :
  Forall (λ c, Column._table c = Some name)
         (Table.column (Table_init column name constraints schema s).1)
  ∧ Column.sql <$> Table.column (Table_init column name constraints schema s).1
    = Column.sql <$> column
  ∧ (∀ n, name = Some n → truthy n = true →
     Column.identifier <$> Table.column (Table_init column name constraints schema s).1
     = (λ c, n +:+ "." +:+ Column.name c) <$> column
     ∧ Table.select (Table_init column name constraints schema s).1 WNone None
       = Ok ("SELECT "
             +:+ String.concat ", " ((λ c, n +:+ "." +:+ Column.name c) <$> column)
             +:+ " " +:+ NL +:+ " FROM " +:+ n +:+ " " +:+ NL +:+ " "))
  ∧ (name = None ∨ name = Some "" →
     Column.identifier <$> Table.column (Table_init column name constraints schema s).1
     = Column.name <$> column).
Proof.
  unfold Table_init. cbn [fst Table.column].
  split; [|split; [|split]].
  - apply Forall_fmap, Forall_true. done.
  - rewrite <- list_fmap_compose. apply list_fmap_ext. by intros _ [] _.
  - intros n -> Hn.
    assert (Column.identifier <$> (Column.set_table (Some n) <$> column)
            = (λ c, n +:+ "." +:+ Column.name c) <$> column) as Hid.
    { rewrite <- list_fmap_compose. apply list_fmap_ext. intros _ c _.
      unfold compose. by rewrite Column_set_table_identifier, Hn. }
    split; [done|].
    rewrite (Table_select_all_columns _ WNone "") by done.
    cbn [Table.column Table.name_value Table.name format]. by rewrite Hid.
  - intros Hname. rewrite <- list_fmap_compose. apply list_fmap_ext.
    intros _ c _. unfold compose. rewrite Column_set_table_identifier.
    by destruct Hname as [->| ->].
Qed.

Lemma Table_init_attaches_columns_witness :
  Column.identifier <$> Table.column users = ["users.id"; "users.name"]
  ∧ Column.identifier
    <$> Table.column (Table_init [id_column; name_column] None [] "Main" ∅).1
    = ["id"; "name"].
Proof.
  split.
  - refine (proj1 (proj1 (proj2 (proj2 (Table_init_attaches_columns
              [id_column; name_column] (Some "users") [] "Main" ∅)))
              "users" _ _)); reflexivity.
  - refine (proj2 (proj2 (proj2 (Table_init_attaches_columns
              [id_column; name_column] None [] "Main" ∅))) _).
    by left.
Defined.

Lemma ds_sql_Column (c : Column.t) :
  ds_sql (Obj (Column.object c)) = Ok (SStr (Column.sql c)).
Proof. reflexivity. Qed.

(** X5.  The DDL of a table never depends on anything but its name, its
    columns and its constraints: when every constraint renders to text it is
    [CREATE TABLE IF NOT EXISTS <name> (], a line break, then the column
    definitions followed by the constraints, all in their given order and
    comma-separated, and a closing parenthesis. *)
Theorem Table_sql_create (t : Table.t) (g : value → string) :
  (∀ c, c ∈ Table.constraints t → ds_sql c = Ok (SStr (g c))) →
  Table.sql t
  = Ok ("CREATE TABLE IF NOT EXISTS " +:+ format (Table.name_value t)
        +:+ " (" +:+ NL +:+ " "
        +:+ String.concat ", "
              ((Column.sql <$> Table.column t) ++ (g <$> Table.constraints t))
        +:+ ")").
Proof.
  intros Hg. unfold Table.sql, joinmap.
  pose (text := λ x, match ds_sql x with Ok (SStr text) => text | _ => "" end).
  assert (text <$> Table.columns_as_values t ++ Table.constraints t
          = (Column.sql <$> Table.column t) ++ (g <$> Table.constraints t)) as Ht.
  { rewrite fmap_app. f_equal.
    - unfold Table.columns_as_values. rewrite <- list_fmap_compose.
      by apply list_fmap_ext.
    - apply list_fmap_ext. intros _ c Hc%list_elem_of_lookup_2.
      unfold text. by rewrite (Hg c Hc). }
  rewrite (join_map_text _ _ text).
  - by rewrite Ht.
  - intros x [Hx|Hx]%elem_of_app.
    + apply list_elem_of_fmap in Hx as (c & -> & _). done.
    + unfold text. by rewrite (Hg x Hx).
Qed.

Lemma Table_sql_create_witness :
  Table.sql (Table.mk [id_column; name_column] (Some "users")
               [VStr "UNIQUE (id, name)"] "Main")
  = Ok ("CREATE TABLE IF NOT EXISTS users (" +:+ NL
        +:+ " id INTEGER PRIMARY KEY, name TEXT NOT NULL, UNIQUE (id, name))").
Proof.
  apply (Table_sql_create
           (Table.mk [id_column; name_column] (Some "users")
              [VStr "UNIQUE (id, name)"] "Main")
           (λ _, "UNIQUE (id, name)")).
  intros c [->|[]%elem_of_nil]%elem_of_cons. reflexivity.
Defined.

(** X6.  The foreign key that [Table.fkey()] makes by default is named
    [Fkey on <keys>] and renders as [FOREIGN KEY (<keys>) REFERENCES
    <table>(<keys>)], where the keys are the unqualified names of the
    primary-key columns of the table in their declared order, the same list
    on both sides. *)
Theorem Table_fkey_default_sql (t : Table.t) (s : Database.directory)
    (fk : ForeignKey.t) :
  (Table_fkey t None s).1 = Ok fk →
  ForeignKey.name fk
  = Ok ("Fkey on " +:+ String.concat ", " (Column.name <$> Table.pkey t))
  ∧ ForeignKey.sql fk
    = Ok ("FOREIGN KEY (" +:+ String.concat ", " (Column.name <$> Table.pkey t)
          +:+ ") REFERENCES " +:+ format (Table.name_value t)
          +:+ "(" +:+ String.concat ", " (Column.name <$> Table.pkey t) +:+ ")")
  ∧ Table.pkey t `sublist_of` Table.column t.
Proof.
  intros Hfk. unfold Table_fkey in Hfk.
  rewrite (ForeignKey_init_Ok _ _ _ _ _ (ForeignKey_name_of_columns _ _ _)) in Hfk.
  injection Hfk as <-. split; [apply ForeignKey_name_of_columns|]. split.
  - unfold ForeignKey.sql, joinmap.
    cbn [ForeignKey.column ForeignKey.reference_column ForeignKey.reference_table].
    rewrite join_map_fmap, (join_map_text _ _ Column.name) by done.
    reflexivity.
  - apply sublist_filter.
Qed.

Lemma Table_fkey_default_sql_witness :
  ∃ fk, (Table_fkey users None ∅).1 = Ok fk
        ∧ ForeignKey.sql fk = Ok "FOREIGN KEY (id) REFERENCES users(id)".
Proof.
  eexists. split; [reflexivity|].
  refine (proj1 (proj2 (Table_fkey_default_sql users ∅ _ _))). reflexivity.
Defined.

(** ** The registration directory *)

Lemma resolve_lookup (o : string) (s : Database.directory) :
  resolve o s
  = match default ∅ (s !! "Table") !! Some o with
    | Some found => Ok found
    | None => Raise KeyError
    end.
Proof. reflexivity. Qed.

Lemma Table_init_directory (column : list Column.t) (name : option string)
    (constraints : list value) (schema : string) (s : Database.directory) :
  (Table_init column name constraints schema s).2 !! "Table"
  = Some (<[name := RTable (Table_init column name constraints schema s).1]>
            (default ∅ (s !! "Table"))).
Proof.
  unfold Table_init, RegisteredObject.__post_init__, Database.of_kind. cbn.
  by rewrite lookup_insert_eq.
Qed.

Lemma ForeignKey_init_directory (column : Fragments value) (t : Table.t)
    (refs : list value) (s : Database.directory) :
  (ForeignKey_init column t refs s).2 !! "Table" = s !! "Table".
Proof.
  unfold ForeignKey_init, RegisteredObject.__post_init__, Database.of_kind.
  destruct (ForeignKey.name _) as [nm|e]; cbn.
  - by rewrite !lookup_insert_ne.
  - by rewrite lookup_insert_ne.
Qed.

Lemma Database_table_directory (arg : Table.t + string) (s : Database.directory) :
  default ∅ ((Database.table arg s).2 !! "Table") = default ∅ (s !! "Table").
Proof.
  destruct arg as [t|o]; [done|].
  unfold Database.table, Database.of_kind. cbn. by rewrite lookup_insert_eq.
Qed.

(** X7.  Registering a table leaves every table registered under another
    name registered, with the same name, schema and column definitions, and
    leaves a name that was not registered unregistered; a table registered
    under a name that is already taken replaces the earlier one: the name
    resolves to the table constructed last. *)
Theorem Table_init_overwrites_same_name_only (column column' : list Column.t)
    (name : option string) (constraints constraints' : list value)
    (schema schema' : string) (o : string) (s : Database.directory) :
  (name ≠ Some o →
   table_definition <$> resolve o (Table_init column name constraints schema s).2
   = table_definition <$> resolve o s)
  ∧ resolve o
      (Table_init column' (Some o) constraints' schema'
         (Table_init column (Some o) constraints schema s).2).2
    = Ok (RTable (Table.mk (Column.set_table (Some o) <$> column') (Some o)
                    constraints' schema')).
Proof.
  split.
  - intros Hne. rewrite !resolve_lookup, Table_init_directory. cbn.
    by rewrite lookup_insert_ne.
  - rewrite resolve_lookup, Table_init_directory. cbn.
    by rewrite lookup_insert_eq.
Qed.

Lemma Table_init_overwrites_same_name_only_witness :
  table_definition
  <$> resolve "users"
        (Table_init [id_column] (Some "orders") [] "Main"
           (Table_init [id_column; name_column] (Some "users") [] "Main" ∅).2).2
  = table_definition
    <$> resolve "users"
          (Table_init [id_column; name_column] (Some "users") [] "Main" ∅).2.
Proof.
  refine (proj1 (Table_init_overwrites_same_name_only [id_column] []
                   (Some "orders") [] [] "Main" "Main" "users"
                   (Table_init [id_column; name_column] (Some "users") [] "Main" ∅).2)
                _).
  discriminate.
Defined.

(** X8.  Constructing a foreign key, whether it succeeds or fails, does not
    change what any table name resolves to; when it succeeds the key is
    registered among the foreign keys under its derived name. *)
Theorem ForeignKey_init_registers_apart (column : Fragments value) (t : Table.t)
    (refs : list value) (o nm : string) (s : Database.directory) :
  resolve o (ForeignKey_init column t refs s).2 = resolve o s
  ∧ (ForeignKey.name (ForeignKey.mk column t refs) = Ok nm →
     ∃ keys, (ForeignKey_init column t refs s).2 !! "ForeignKey" = Some keys
             ∧ keys !! Some nm = Some (RForeignKey (ForeignKey.mk column t refs))).
Proof.
  split.
  - by rewrite !resolve_lookup, ForeignKey_init_directory.
  - intros Hnm. unfold ForeignKey_init, RegisteredObject.__post_init__,
      Database.of_kind. rewrite Hnm. cbn.
    eexists. split; [apply lookup_insert_eq|apply lookup_insert_eq].
Qed.

Lemma ForeignKey_init_registers_apart_witness :
  ∃ keys, (ForeignKey_init (Many [VStr "a"; VStr "b"]) users [VStr "id"] ∅).2
          !! "ForeignKey" = Some keys
          ∧ keys !! Some "Fkey on a, b"
            = Some (RForeignKey
                      (ForeignKey.mk (Many [VStr "a"; VStr "b"]) users [VStr "id"])).
Proof.
  refine (proj2 (ForeignKey_init_registers_apart (Many [VStr "a"; VStr "b"]) users
                   [VStr "id"] "users" "Fkey on a, b" ∅) _).
  reflexivity.
Defined.

Lemma tables_named_lookup (s : Database.directory)
    (tables : gmap (option string) registered) :
  tables_named s → s !! "Table" = Some tables ∨ (s !! "Table" = None ∧ tables = ∅) →
  ∀ o found, tables !! o = Some found → ∃ t, found = RTable t ∧ Table.name t = o.
Proof.
  intros Hs [Ht|[_ ->]] o found Ho; [by eapply Hs|].
  by rewrite lookup_empty in Ho.
Qed.

Lemma tables_named_default (s : Database.directory) :
  tables_named s →
  ∀ o found, default ∅ (s !! "Table") !! o = Some found →
             ∃ t, found = RTable t ∧ Table.name t = o.
Proof.
  intros Hs. apply (tables_named_lookup s); [done|].
  destruct (s !! "Table"); [by left|by right].
Qed.

(** X9.  The directory keeps an invariant: under every name of the
    directory of tables stands a [Table] object that carries this name.  It
    holds for the empty directory and is preserved by constructing a table,
    by constructing a foreign key and by resolving a table or a name, so a
    name never resolves to anything but a table of that name. *)
Theorem tables_named_invariant (s : Database.directory) :
  tables_named ∅
  ∧ (tables_named s →
     (∀ column name constraints schema,
        tables_named (Table_init column name constraints schema s).2)
     ∧ (∀ column t refs, tables_named (ForeignKey_init column t refs s).2)
     ∧ (∀ t on_column, tables_named (Table_fkey t on_column s).2)
     ∧ (∀ arg, tables_named (Database.table arg s).2)
     ∧ (∀ o found, resolve o s = Ok found →
                   ∃ t, found = RTable t ∧ Table.name t = Some o)).
Proof.
  split; [by intros tables o found ?%lookup_empty_Some|].
  intros Hs. split; [|split; [|split; [|split]]].
  - intros column name constraints schema tables o found Ht Ho.
    rewrite Table_init_directory in Ht. injection Ht as <-.
    destruct (decide (name = o)) as [->|Hne].
    + rewrite lookup_insert_eq in Ho. injection Ho as <-. by eexists.
    + rewrite lookup_insert_ne in Ho by done. by eapply tables_named_default.
  - intros column t refs tables o found Ht Ho.
    rewrite ForeignKey_init_directory in Ht. by eapply Hs.
  - intros t on_column tables o found Ht Ho. unfold Table_fkey in Ht.
    rewrite ForeignKey_init_directory in Ht. by eapply Hs.
  - intros arg tables o found Ht Ho.
    apply (tables_named_default s Hs o found).
    by rewrite <- (Database_table_directory arg), Ht.
  - intros o found Hr. rewrite resolve_lookup in Hr.
    destruct (default ∅ (s !! "Table") !! Some o) as [r|] eqn:Ho; [|done].
    injection Hr as ->. by eapply tables_named_default.
Qed.

Lemma tables_named_invariant_witness :
  ∃ t, RTable users = RTable t ∧ Table.name t = Some "users".
Proof.
  refine (proj2 (proj2 (proj2 (proj2 (proj2
            (tables_named_invariant
               (Table_init [id_column; name_column] (Some "users") [] "Main" ∅).2)
            _)))) "users" (RTable users) _).
  - refine (proj1 (proj2 (tables_named_invariant ∅) _) _ _ _ _).
    exact (proj1 (tables_named_invariant ∅)).
  - rewrite resolve_lookup, Table_init_directory. cbn.
    by rewrite lookup_insert_eq.
Defined.

(** X10.  Resolving never removes or changes an entry of the directory.
    The only trace it can leave is the one of the defaultdict: resolving a
    name while no table has been registered yet fails and leaves an empty
    directory of tables behind.  Resolving the same argument again gives the
    same answer and changes nothing more. *)
Theorem Database_table_keeps_entries (arg : Table.t + string)
    (s : Database.directory) :
  (∀ kind d, s !! kind = Some d → (Database.table arg s).2 !! kind = Some d)
  ∧ Database.table arg (Database.table arg s).2 = Database.table arg s
  ∧ (∀ o, s !! "Table" = None →
          Database.table (inr o) s = (Raise KeyError, <["Table" := ∅]> s)).
Proof.
  split; [|split].
  - intros kind d Hd. destruct arg as [t|o]; [done|].
    unfold Database.table, Database.of_kind. cbn.
    destruct (decide (kind = "Table")) as [->|Hne].
    + by rewrite Hd, lookup_insert_eq.
    + by rewrite lookup_insert_ne.
  - destruct arg as [t|o]; [done|].
    unfold Database.table, Database.of_kind. cbn.
    by rewrite lookup_insert_eq, insert_insert_eq.
  - intros o Hs. unfold Database.table, Database.of_kind. rewrite Hs. cbn.
    by rewrite lookup_empty.
Qed.

Lemma Database_table_keeps_entries_witness :
  Database.table (inr "ghost") ∅ = (Raise KeyError, <["Table" := ∅]> ∅).
Proof.
  refine (proj2 (proj2 (Database_table_keeps_entries (inr "ghost") ∅)) "ghost" _).
  apply lookup_empty.
Defined.

(** ** Predicates and the statements built from them *)

Lemma ds_quote_cases (o : value) :
  (∃ q, ds_quote o = Ok q) ∨ ds_quote o = Raise KeyError.
Proof. destruct o as [[| | | | |]|]; eauto. Qed.

(** X11.  A membership test renders as the column, a space, [NOT] or
    nothing, and [ IN (...)] around the quoted targets joined by commas, so
    that the test that is not inverted has two spaces before [IN]; a column
    object is given by its qualified identifier; a single string as target
    is one quoted item; and a target of a kind that has no cast, such as a
    boolean or [None], fails the whole rendering with [KeyError]. *)
Theorem Where_In_sql (c s : string) (col : Column.t) (strs : list string)
    (items : list value) (invert : bool) :
  Where.In.sql (Where.In.mk (VStr c) (Many (VStr <$> strs)) invert)
  = Ok (c +:+ " " +:+ (if invert then "NOT" else "") +:+ " IN ("
        +:+ String.concat ", " ((λ x, "'" +:+ x +:+ "'") <$> strs) +:+ ")")
  ∧ Where.In.sql (Where.In.mk (Obj (Column.object col)) (Many (VStr <$> strs)) invert)
    = Ok (Column.identifier col +:+ " " +:+ (if invert then "NOT" else "")
          +:+ " IN ("
          +:+ String.concat ", " ((λ x, "'" +:+ x +:+ "'") <$> strs) +:+ ")")
  ∧ Where.In.sql (Where.In.mk (VStr c) (One (VStr s)) invert)
    = Where.In.sql (Where.In.mk (VStr c) (Many [VStr s]) invert)
  ∧ (Exists (λ v, quotable v = false) items →
     Where.In.sql (Where.In.mk (VStr c) (Many items) invert) = Raise KeyError).
Proof.
  assert (joinmap (Many (VStr <$> strs)) (λ o, SStr <$> ds_quote o) ", "
          = Ok (SStr (String.concat ", " ((λ x, "'" +:+ x +:+ "'") <$> strs))))
    as Hjoin.
  { unfold joinmap. rewrite join_map_fmap. by apply join_map_text. }
  split; [|split; [|split]].
  - unfold Where.In.sql. cbn [Where.In.column Where.In.target Where.In.invert].
    by rewrite Hjoin.
  - unfold Where.In.sql. cbn [Where.In.column Where.In.target Where.In.invert].
    by rewrite Hjoin.
  - reflexivity.
  - intros Hex. unfold Where.In.sql, joinmap, join_map.
    cbn [Where.In.column Where.In.target Where.In.invert].
    rewrite (mapM_Raise _ KeyError); [done| |].
    + intros x _. destruct (ds_quote_cases x) as [[q ->]| ->]; eauto.
    + eapply Exists_impl; [done|].
      intros [[| | | | |]|] Hq; done.
Qed.

Lemma Where_In_sql_witness :
  Where.In.sql (Where.In.mk (VStr "id") (Many [VInt 1; Lit (SBool true)]) false)
  = Raise KeyError.
Proof.
  refine (proj2 (proj2 (proj2 (Where_In_sql "id" "" id_column []
                                 [VInt 1; Lit (SBool true)] false))) _).
  right. left. reflexivity.
Defined.

Lemma Table_delete_result (t : Table.t) (where_ : where_arg) :
  Table.delete t where_
  = (λ w, ("DELETE FROM " +:+ format (Table.name_value t) +:+ " " +:+ NL
           +:+ " " +:+ w, where_))
    <$> Where.sql (ds_where where_).
Proof.
  unfold Table.delete. rewrite ds_sql_Where.
  by destruct (Where.sql (ds_where where_)).
Qed.

(** X12.  Rendering a predicate can only fail with [KeyError], and it does
    so exactly when a value of the mapping is an instance of a proper
    subclass of [str]: such a value passes the [isinstance] test of the loop
    and has no cast in [ds_quote].  With any other mapping, and with [None],
    it succeeds.  [select] over the columns of the table and [delete] fail
    or succeed as the predicate does. *)
Theorem Where_sql_fails_on_str_subclass_only (d : pydict string value)
    (t : Table.t) (where_ : where_arg) :
  Where.sql (Where.mk None) = Ok ""
  ∧ (plain_values d → ∃ text, Where.sql (Where.mk (Some d)) = Ok text)
  ∧ (Exists (λ kv, str_subclass kv.2 = true) d →
     Where.sql (Where.mk (Some d)) = Raise KeyError)
  ∧ Table.select t where_ None
    = (λ w, "SELECT " +:+ String.concat ", " (Column.identifier <$> Table.column t)
            +:+ " " +:+ NL +:+ " FROM " +:+ format (Table.name_value t)
            +:+ " " +:+ NL +:+ " " +:+ w)
      <$> Where.sql (ds_where where_)
  ∧ Table.delete t where_
    = (λ w, ("DELETE FROM " +:+ format (Table.name_value t) +:+ " " +:+ NL
             +:+ " " +:+ w, where_))
      <$> Where.sql (ds_where where_).
Proof.
  split; [done|]. split; [|split; [|split]].
  - intros Hp. destruct d as [|kv d]; [by eexists|].
    eexists. by apply Where_sql_nonempty.
  - apply Where_sql_str_subclass.
  - apply Table_select_result.
  - apply Table_delete_result.
Qed.

Lemma Where_sql_fails_on_str_subclass_only_witness :
  (∃ text, Where.sql (Where.mk (Some [("a", VStr "x"); ("b", VInt 1)])) = Ok text)
  ∧ Where.sql (Where.mk (Some [("a", VStr "x");
                               ("b", Lit (SStrSub "RED" "Color.RED"))]))
    = Raise KeyError.
Proof.
  split.
  - refine (proj1 (proj2 (Where_sql_fails_on_str_subclass_only
                            [("a", VStr "x"); ("b", VInt 1)] users WNone)) _).
    repeat constructor.
  - refine (proj1 (proj2 (proj2 (Where_sql_fails_on_str_subclass_only
                            [("a", VStr "x"); ("b", Lit (SStrSub "RED" "Color.RED"))]
                            users WNone))) _).
    right. left. reflexivity.
Defined.

(** X13.  [delete] with the empty mapping renders no condition at all: the
    statement is [DELETE FROM <name>] and addresses every row.  With a
    non-empty mapping whose string values are plain strings the condition is
    the rendered predicate, with the values inlined as literals, and what is
    paired with the text is the mapping as it was passed. *)
Theorem Table_delete_mapping (t : Table.t) (d : pydict string value) :
  Table.delete t (WDict [])
  = Ok ("DELETE FROM " +:+ format (Table.name_value t) +:+ " " +:+ NL +:+ " ",
        WDict [])
  ∧ (d ≠ [] → plain_values d →
     Table.delete t (WDict d)
     = Ok ("DELETE FROM " +:+ format (Table.name_value t) +:+ " " +:+ NL
           +:+ " " +:+ "WHERE "
           +:+ String.concat LINE_AND_SEPERATOR (equality_text <$> string_entries d),
           WDict d)).
Proof.
  split; [done|]. intros Hd Hp. rewrite Table_delete_result. cbn [ds_where].
  by rewrite (Where_sql_nonempty d Hd Hp).
Qed.

Lemma Table_delete_mapping_witness :
  Table.delete users (WDict [("name", VStr "alice")])
  = Ok ("DELETE FROM users " +:+ NL +:+ " WHERE name = 'alice'",
        WDict [("name", VStr "alice")]).
Proof.
  refine (proj2 (Table_delete_mapping users [("name", VStr "alice")]) _ _).
  - discriminate.
  - repeat constructor.
Defined.

(** X14.  [select] with an empty list of columns selects all the columns of
    the table, exactly as when no columns are given; column names given as
    strings are listed as they are, unqualified and in the given order. *)
Theorem Table_select_columns (t : Table.t) (where_ : where_arg)
    (names : list string) (w : string) :
  Table.select t where_ (Some []) = Table.select t where_ None
  ∧ (names ≠ [] → Where.sql (ds_where where_) = Ok w →
     Table.select t where_ (Some (VStr <$> names))
     = Ok ("SELECT " +:+ String.concat ", " names +:+ " " +:+ NL
           +:+ " FROM " +:+ format (Table.name_value t) +:+ " " +:+ NL
           +:+ " " +:+ w)).
Proof.
  split; [done|]. intros Hn Hw. unfold Table.select.
  assert (Table.selected t (Some (VStr <$> names)) = VStr <$> names) as ->
    by by destruct names.
  unfold joinmap. rewrite join_map_fmap, (join_map_text _ _ id) by done.
  rewrite ds_sql_Where, Hw, list_fmap_id. reflexivity.
Qed.

Lemma Table_select_columns_witness :
  Table.select users WNone (Some (VStr <$> ["name"]))
  = Ok ("SELECT name " +:+ NL +:+ " FROM users " +:+ NL +:+ " ").
Proof.
  refine (proj2 (Table_select_columns users WNone ["name"] "") _ _).
  - discriminate.
  - reflexivity.
Defined.

Lemma Table_insert_text (t : Table.t) (data : pydict string value) (replace : bool) :
  fst <$> Table.insert t data replace
  = Ok ((if replace then "REPLACE" else "INSERT") +:+ " INTO "
        +:+ format (Table.name_value t)
        +:+ " (" +:+ String.concat ", " (dict_keys data)
        +:+ ") VALUES(" +:+ String.concat ", " ((λ k, ":" +:+ k) <$> dict_keys data)
        +:+ ");").
Proof.
  unfold Table.insert.
  rewrite (joinmap_keys _ id), (joinmap_keys _ (λ k, ":" +:+ k)).
  by rewrite list_fmap_id.
Qed.

(** X15.  The text of an [INSERT] never contains a value of the data: two
    data mappings with the same keys in the same order give the same text,
    whatever their values are. *)
Theorem Table_insert_ignores_values (t : Table.t)
    (data data' : pydict string value) (replace : bool) :
  dict_keys data = dict_keys data' →
  fst <$> Table.insert t data replace = fst <$> Table.insert t data' replace.
Proof. intros Hk. by rewrite !Table_insert_text, Hk. Qed.

Lemma Table_insert_ignores_values_witness :
  fst <$> Table.insert users [("name", VStr "alice")] false
  = fst <$> Table.insert users [("name", VStr "x'); DROP TABLE users; --")] false.
Proof.
  apply (Table_insert_ignores_values users [("name", VStr "alice")]
           [("name", VStr "x'); DROP TABLE users; --")] false).
  reflexivity.
Defined.

(** ** Statement assembly *)

Lemma dict_get_key {K V : Type} `{EqDecision K} (d : pydict K V) (k : K) :
  is_Some (dict_get d k) → k ∈ dict_keys d.
Proof.
  induction d as [|[k' v] d IH]; cbn; [by intros [? ?]|].
  case_decide as Hk; [subst; left|right; auto].
Qed.

Lemma omap_all_None {A B : Type} (f : A → option B) (l : list A) :
  (∀ x, x ∈ l → f x = None) → omap f l = [].
Proof.
  induction l as [|x l IH]; intros Hf; [done|].
  cbn. rewrite (Hf x) by left. apply IH. intros y Hy. apply Hf. by right.
Qed.

(** X16.  A statement only ever emits clauses of its own kind: a clause of
    another enumeration that sits in the mapping is skipped, even when it
    bears the same name, so a mapping that holds no clause of the kind of
    the statement gives the empty text; and no statement emits more clauses
    than its kind declares. *)
Theorem Statement_sql_ignores_other_kinds (T : StatementType)
    (components : pydict clause string) (values : option (pydict string value)) :
  (∀ c, c ∈ Statement.emitted (Statement.mk T components values) →
        member_of c = T ∧ c ∈ dict_keys components)
  ∧ (length (Statement.emitted (Statement.mk T components values))
     ≤ length (declared T))%nat
  ∧ ((∀ c, c ∈ dict_keys components → member_of c ≠ T) →
     Statement.sql (Statement.mk T components values) = Ok "").
Proof.
  split; [|split].
  - intros c [Hc Hm]%list_elem_of_filter. cbn in *.
    apply list_elem_of_fmap in Hm as (m & -> & _). split; [done|].
    by apply dict_get_key, dict_contains_true.
  - unfold Statement.emitted. cbn.
    etrans; [apply length_filter|]. unfold members. by rewrite length_fmap.
  - intros Hother. rewrite Statement_sql_omap, omap_all_None; [done|].
    intros c (m & -> & _)%list_elem_of_fmap.
    destruct (dict_get components (Member T m.1)) as [v|] eqn:Hv; [|done].
    destruct (Hother (Member T m.1)); [|done].
    apply dict_get_key. by exists v.
Qed.

Lemma Statement_sql_ignores_other_kinds_witness :
  Statement.sql (Statement.mk SelectType [(Member DeleteType "FROM", "FROM t")] None)
  = Ok "".
Proof.
  apply Statement_sql_ignores_other_kinds.
  intros c [->|[]%elem_of_nil]%elem_of_cons. discriminate.
Defined.
